(** * license-db: the activation script [activate.py]

    A shallow embedding of the script that GitHub Actions runs for one
    activation request, and the properties of the license ledger that
    follow from it.

    Conventions of the model.
    - A Python [str] is a Rocq [string]; the characters are taken in the
      ASCII range, where [str.strip], [str.upper], [str.lower] act as
      the functions below and [str.encode("utf-8")] is the identity.
    - [hashlib.sha256] is the FIPS 180-4 function, written out below on
      32-bit words held in [Z] and run on test vectors.
    - The file system, the clock and the process exit are effects of a
      small state-and-exception monad [M]; every call of
      [datetime.now] reads the next value of the clock.
    - [licenses.json] is either absent, or holds text that [json.load]
      rejects, or holds the JSON of a [LicenseDatabase]: an object of
      the shape the script itself writes.  JSON of another shape, on
      which the script dies of a KeyError or a TypeError before it
      writes anything, is left out.
    - The [print] calls and [os.makedirs] are left out; a result file is
      known by its path.
    - Requests that run side by side are processes that take turns at
      the file accesses of the script, see [step]. *)

From Stdlib Require Import ZArith String Ascii List Lia Bool.
From stdpp Require Import base option list gmap strings pretty.

Local Open Scope Z_scope.
Local Open Scope string_scope.

(* ================================================================== *)
(** ** Python string methods used by the script                        *)
(* ================================================================== *)

Module PyStr.

(** [str.isspace] on one ASCII character: HT, LF, VT, FF, CR, the four
    separators FS..US, and the space. *)
Definition is_space (c : ascii) : bool :=
  let n := nat_of_ascii c in
  ((9 <=? n) && (n <=? 13) || (28 <=? n) && (n <=? 32))%nat.

Definition upper_char (c : ascii) : ascii :=
  let n := nat_of_ascii c in
  if ((97 <=? n) && (n <=? 122))%nat then ascii_of_nat (n - 32) else c.

Definition lower_char (c : ascii) : ascii :=
  let n := nat_of_ascii c in
  if ((65 <=? n) && (n <=? 90))%nat then ascii_of_nat (n + 32) else c.

Fixpoint map (f : ascii -> ascii) (s : string) : string :=
  match s with
  | EmptyString => EmptyString
  | String c r => String (f c) (map f r)
  end.

(** [s.upper()] and [s.lower()] *)
Definition upper : string -> string := map upper_char.
Definition lower : string -> string := map lower_char.

Fixpoint lstrip (s : string) : string :=
  match s with
  | String c r => if is_space c then lstrip r else s
  | EmptyString => EmptyString
  end.

(** [rstrip] keeps a character when something that is not blank follows
    it or when it is not blank itself. *)
Fixpoint rstrip (s : string) : string :=
  match s with
  | EmptyString => EmptyString
  | String c r =>
      match rstrip r with
      | EmptyString => if is_space c then EmptyString else String c EmptyString
      | r' => String c r'
      end
  end.

(** [s.strip()] *)
Definition strip (s : string) : string := rstrip (lstrip s).

(** [s.replace(c, empty)] for a one-character [c] *)
Fixpoint remove_char (c : ascii) (s : string) : string :=
  match s with
  | EmptyString => EmptyString
  | String d r => if Ascii.eqb d c then remove_char c r else String d (remove_char c r)
  end.

(** [not s]: the empty string is falsy *)
Definition falsy (s : string) : bool :=
  match s with EmptyString => true | _ => false end.

(** [s[:n]] *)
Fixpoint take (n : nat) (s : string) : string :=
  match n, s with
  | S n', String c r => String c (take n' r)
  | _, _ => EmptyString
  end.


(** every character of [s] satisfies [p] *)
Fixpoint all (p : ascii -> bool) (s : string) : bool :=
  match s with
  | EmptyString => true
  | String d r => p d && all p r
  end.

End PyStr.

(* ================================================================== *)
(** ** hashlib.sha256 (FIPS 180-4)                                     *)
(* ================================================================== *)

Module SHA256.

Definition w32 (x : Z) : Z := x mod 2 ^ 32.
Definition add32 (x y : Z) : Z := w32 (x + y).
Definition rotr (n x : Z) : Z := Z.lor (Z.shiftr x n) (w32 (Z.shiftl x (32 - n))).
Definition not32 (x : Z) : Z := Z.lxor x 0xffffffff.

Definition Ch (x y z : Z) : Z := Z.lxor (Z.land x y) (Z.land (not32 x) z).
Definition Maj (x y z : Z) : Z :=
  Z.lxor (Z.lxor (Z.land x y) (Z.land x z)) (Z.land y z).
Definition Sigma0 (x : Z) : Z := Z.lxor (Z.lxor (rotr 2 x) (rotr 13 x)) (rotr 22 x).
Definition Sigma1 (x : Z) : Z := Z.lxor (Z.lxor (rotr 6 x) (rotr 11 x)) (rotr 25 x).
Definition sigma0 (x : Z) : Z := Z.lxor (Z.lxor (rotr 7 x) (rotr 18 x)) (Z.shiftr x 3).
Definition sigma1 (x : Z) : Z := Z.lxor (Z.lxor (rotr 17 x) (rotr 19 x)) (Z.shiftr x 10).

(** The first sixty-four primes, by trial division. *)
Definition is_prime (n : Z) : bool :=
  ((2 <=? n) && forallb (fun d => negb (n mod Z.of_nat d =? 0)) (seq 2 (Z.to_nat n - 2)))%Z.

Definition primes : list Z :=
  Eval vm_compute in filter (fun n => is_prime n) (List.map Z.of_nat (seq 2 310)).

(** The integer cube root of [n] below [2 ^ bits], found bit by bit. *)
Fixpoint icbrt (bits : nat) (r n : Z) : Z :=
  match bits with
  | O => r
  | S b =>
      let r' := r + 2 ^ Z.of_nat b in
      if (r' * r' * r' <=? n)%Z then icbrt b r' n else icbrt b r n
  end.

(** The round constants: the first 32 bits of the fractional parts of
    the cube roots of the primes. *)
Definition K : list Z :=
  Eval vm_compute in List.map (fun p => w32 (icbrt 40 0 (p * 2 ^ 96))) primes.

(** The eight working variables, also the chaining value. *)
Record state := State { sa : Z; sb : Z; sc : Z; sd : Z; se : Z; sf : Z; sg : Z; sh : Z }.

(** The initial value: the first 32 bits of the fractional parts of the
    square roots of the first eight primes. *)
Definition frac_sqrt (p : Z) : Z := w32 (Z.sqrt (p * 2 ^ 64)).

Definition H0 : state :=
  Eval vm_compute in
    State (frac_sqrt 2) (frac_sqrt 3) (frac_sqrt 5) (frac_sqrt 7)
          (frac_sqrt 11) (frac_sqrt 13) (frac_sqrt 17) (frac_sqrt 19).

Fixpoint bytes_of_string (s : string) : list Z :=
  match s with
  | EmptyString => []
  | String c r => Z.of_nat (nat_of_ascii c) :: bytes_of_string r
  end.

(** [n] as [k] big-endian bytes *)
Fixpoint be_bytes (k : nat) (n : Z) : list Z :=
  match k with
  | O => []
  | S k' => (Z.shiftr n (8 * Z.of_nat k')) mod 256 :: be_bytes k' n
  end.

(** Padding: a 1 bit, zeros up to 56 mod 64, the bit length on 64 bits. *)
Definition pad (msg : list Z) : list Z :=
  let len := Z.of_nat (length msg) in
  msg ++ [0x80] ++ repeat 0 (Z.to_nat ((55 - len) mod 64)) ++ be_bytes 8 (8 * len).

(** Four bytes, big-endian, to a word. *)
Fixpoint words_of_bytes (bs : list Z) : list Z :=
  match bs with
  | b0 :: b1 :: b2 :: b3 :: r =>
      (Z.shiftl b0 24 + Z.shiftl b1 16 + Z.shiftl b2 8 + b3) :: words_of_bytes r
  | _ => []
  end.

(** The message schedule, newest word first: [rw] holds W(t-1), W(t-2), ... *)
Fixpoint schedule (n : nat) (rw : list Z) : list Z :=
  match n with
  | O => rw
  | S n' =>
      let w := add32 (add32 (sigma1 (nth 1 rw 0)) (nth 6 rw 0))
                     (add32 (sigma0 (nth 14 rw 0)) (nth 15 rw 0)) in
      schedule n' (w :: rw)
  end.

Definition round (s : state) (kw : Z * Z) : state :=
  let '(k, w) := kw in
  let t1 := add32 (add32 (add32 (sh s) (Sigma1 (se s))) (Ch (se s) (sf s) (sg s)))
                  (add32 k w) in
  let t2 := add32 (Sigma0 (sa s)) (Maj (sa s) (sb s) (sc s)) in
  State (add32 t1 t2) (sa s) (sb s) (sc s) (add32 (sd s) t1) (se s) (sf s) (sg s).

Definition compress (h : state) (block : list Z) : state :=
  let W := rev (schedule 48 (rev block)) in
  let s := fold_left round (combine K W) h in
  State (add32 (sa h) (sa s)) (add32 (sb h) (sb s)) (add32 (sc h) (sc s))
        (add32 (sd h) (sd s)) (add32 (se h) (se s)) (add32 (sf h) (sf s))
        (add32 (sg h) (sg s)) (add32 (sh h) (sh s)).

(** Consume the padded message sixteen words at a time. *)
Fixpoint blocks (fuel : nat) (h : state) (ws : list Z) : state :=
  match fuel, ws with
  | S fuel', _ :: _ => blocks fuel' (compress h (firstn 16 ws)) (skipn 16 ws)
  | _, _ => h
  end.

Definition digest (msg : list Z) : state :=
  let ws := words_of_bytes (pad msg) in
  blocks (length ws) H0 ws.

Definition hex_digit (n : Z) : ascii :=
  match String.get (Z.to_nat (n mod 16)) "0123456789abcdef" with
  | Some c => c
  | None => "0"%char
  end.

(** One word as eight lowercase hex digits. *)
Definition hex_word (w : Z) : string :=
  String (hex_digit (Z.shiftr w 28)) (String (hex_digit (Z.shiftr w 24))
  (String (hex_digit (Z.shiftr w 20)) (String (hex_digit (Z.shiftr w 16))
  (String (hex_digit (Z.shiftr w 12)) (String (hex_digit (Z.shiftr w 8))
  (String (hex_digit (Z.shiftr w 4)) (String (hex_digit w) EmptyString))))))).

Definition hex_state (s : state) : string :=
  hex_word (sa s) +:+ hex_word (sb s) +:+ hex_word (sc s) +:+ hex_word (sd s) +:+
  hex_word (se s) +:+ hex_word (sf s) +:+ hex_word (sg s) +:+ hex_word (sh s).

(** [hashlib.sha256(s.encode("utf-8")).hexdigest()] *)
Definition hexdigest (s : string) : string := hex_state (digest (bytes_of_string s)).

End SHA256.

(* ================================================================== *)
(** ** Data model of licenses.json and of results/<requestId>.json     *)
(* ================================================================== *)

(** The records carry the JSON keys. [machineName] is read with
    [.get("machineName", ...)], so the key may be missing. *)
Record Activation := {
  machineId : string;
  machineName : option string;
  activatedAt : string
}.

Record LicenseEntry := {
  email : string;
  masterKey : string;
  createdAt : string;
  isActive : bool;
  activations : list Activation
}.

Record LicenseDatabase := {
  version : string;
  lastUpdated : string;
  licenses : list LicenseEntry
}.

(** The dict that [write_result] dumps. *)
Record ResultJson := {
  requestId : string;
  success : bool;
  message : string;
  activationToken : string;
  timestamp : string
}.

(** What the path licenses.json holds: nothing, text that [json.load]
    rejects (the empty text of a truncated file is one), or the JSON of
    a database. *)
Inductive File :=
  | Absent
  | Garbled (text : string)
  | Ledger (db : LicenseDatabase).

(** The exceptions the script can die of. *)
Inductive Exn :=
  | ValueError        (* int(...) at line 27 *)
  | JSONDecodeError   (* json.load at line 89 *)
  | IndexError.       (* activations[0] at line 144 *)

(** The world a run acts on: the ledger file, the result files by path,
    and the clock, whose [n]-th reading is [clock n]. *)
Record World := {
  licenses_json : File;
  results : gmap string ResultJson;
  clock : nat -> string;
  ticks : nat
}.

Definition set_file (f : File) (w : World) : World :=
  {| licenses_json := f; results := results w; clock := clock w; ticks := ticks w |}.

Definition set_result (path : string) (r : ResultJson) (w : World) : World :=
  {| licenses_json := licenses_json w; results := <[path := r]> (results w);
     clock := clock w; ticks := ticks w |}.

Definition tick (w : World) : World :=
  {| licenses_json := licenses_json w; results := results w;
     clock := clock w; ticks := S (ticks w) |}.

(* ================================================================== *)
(** ** The monad of the script: state, [exit] and exceptions           *)
(* ================================================================== *)

Inductive Res (A : Type) :=
  | Ret (a : A)          (* the statement completed *)
  | Exit (code : Z)      (* exit(code) was called *)
  | Raise (e : Exn).     (* an exception went uncaught *)
Arguments Ret {A} a.
Arguments Exit {A} code.
Arguments Raise {A} e.

Definition M (A : Type) : Type := World -> Res A * World.

Definition ret {A} (a : A) : M A := fun w => (Ret a, w).

Definition bind {A B} (c : M A) (k : A -> M B) : M B :=
  fun w =>
    match c w with
    | (Ret a, w') => k a w'
    | (Exit n, w') => (Exit n, w')
    | (Raise e, w') => (Raise e, w')
    end.

Declare Scope script_scope.
Delimit Scope script_scope with script.
Notation "x <- c ;; k" := (bind c (fun x => k))
  (at level 100, c at next level, right associativity) : script_scope.
Notation "c ;; k" := (bind c (fun _ => k))
  (at level 100, right associativity) : script_scope.
Local Open Scope script_scope.

Definition exit {A} (code : Z) : M A := fun w => (Exit code, w).
Definition raise {A} (e : Exn) : M A := fun w => (Raise e, w).

(** [if b: c] *)
Definition when (b : bool) (c : M unit) : M unit := if b then c else ret tt.

(** [datetime.now(timezone.utc).isoformat()] *)
Definition now : M string := fun w => (Ret (clock w (ticks w)), tick w).

Definition read_file : M File := fun w => (Ret (licenses_json w), w).
Definition write_file (f : File) : M unit := fun w => (Ret tt, set_file f w).
Definition write_result_file (path : string) (r : ResultJson) : M unit :=
  fun w => (Ret tt, set_result path r w).

(* ================================================================== *)
(** ** Lines 21-27: the module-level names read from the environment   *)
(* ================================================================== *)

Record Globals := {
  g_email : string;
  g_master_key : string;
  g_machine_id : string;
  g_machine_name : string;
  g_request_id : string;
  g_encryption_key : string;
  g_max_activations : Z
}.

(** [os.environ.get(name, dflt)] *)
Definition getenv (environ : gmap string string) (name dflt : string) : string :=
  default dflt (environ !! name).

Definition digit_val (c : ascii) : option Z :=
  let n := nat_of_ascii c in
  if ((48 <=? n) && (n <=? 57))%nat then Some (Z.of_nat n - 48) else None.

(** Decimal digits, single underscores allowed between two digits. *)
Fixpoint parse_digits (acc : Z) (after_digit : bool) (s : string) : option Z :=
  match s with
  | EmptyString => if after_digit then Some acc else None
  | String c r =>
      match digit_val c with
      | Some d => parse_digits (10 * acc + d) true r
      | None =>
          if Ascii.eqb c "_"%char && after_digit then parse_digits acc false r else None
      end
  end.

(** [int(s)] in base ten; [None] stands for [ValueError]. *)
Definition py_int (s : string) : option Z :=
  match PyStr.strip s with
  | String "+"%char r => parse_digits 0 false r
  | String "-"%char r => Z.opp <$> parse_digits 0 false r
  | t => parse_digits 0 false t
  end.

(** Lines 21-27: the names of the script, here with the prefix [g_];
    [None] when [int] rejects MAX_ACTIVATIONS. *)
Definition parse_globals (environ : gmap string string) : option Globals :=
  k ← py_int (getenv environ "MAX_ACTIVATIONS" "1");
  Some {|
    g_email := PyStr.lower (PyStr.strip (getenv environ "INPUT_EMAIL" EmptyString));
    g_master_key :=
      PyStr.remove_char "-"%char
        (PyStr.upper (PyStr.strip (getenv environ "INPUT_MASTERKEY" EmptyString)));
    g_machine_id := PyStr.strip (getenv environ "INPUT_MACHINEID" EmptyString);
    g_machine_name := PyStr.strip (getenv environ "INPUT_MACHINENAME" EmptyString);
    g_request_id := PyStr.strip (getenv environ "INPUT_REQUESTID" EmptyString);
    g_encryption_key := getenv environ "ENCRYPTION_KEY" EmptyString;
    g_max_activations := k
  |}.

Definition read_globals (environ : gmap string string) : M Globals :=
  match parse_globals environ with
  | Some g => ret g
  | None => raise ValueError
  end.

(* ================================================================== *)
(** ** The functions and the steps of the script                       *)
(* ================================================================== *)

(** Lines 35-39. *)
Definition generate_master_key (g : Globals) (email_input : string) : string :=
  let data := email_input +:+ "|lifetime|" +:+ g_encryption_key g in
  let hash_hex := SHA256.hexdigest data in
  let key := PyStr.upper (PyStr.take 16 hash_hex) in
  key.

Definition result_path (g : Globals) : string :=
  "results/" +:+ g_request_id g +:+ ".json".

(** Lines 45-56. *)
Definition write_result (g : Globals) (success : bool) (message token : string) : M unit :=
  ts <- now ;;
  write_result_file (result_path g)
    {| requestId := g_request_id g; success := success; message := message;
       activationToken := token; timestamp := ts |}.

(** Lines 134 and 180: the activation token. *)
Definition activation_token (g : Globals) : string :=
  SHA256.hexdigest
    (g_email g +:+ "|" +:+ g_machine_id g +:+ "|activated|" +:+ g_encryption_key g).

Definition msg_missing_fields : string := "Missing required fields.".
Definition msg_misconfigured : string := "Server misconfigured. Contact support.".
Definition msg_invalid : string :=
  "Invalid license key or email. Please verify and try again.".
Definition msg_already_active : string := "License is active on this computer.".
Definition msg_activated : string := "License activated successfully!".

Definition dquote : string := String (ascii_of_nat 34) EmptyString.

(** Lines 147-149: the f-string of the limit message. *)
Definition msg_limit (occupied : string) (max_activations : Z) : string :=
  "This license is already activated on " +:+ dquote +:+ occupied +:+ dquote +:+ ". "
  +:+ "Maximum allowed: " +:+ pretty max_activations +:+ " computer(s). "
  +:+ "Contact support to transfer your license.".

(** Lines 62-68. *)
Definition validaciones_previas (g : Globals) : M unit :=
  when (PyStr.falsy (g_email g) || PyStr.falsy (g_master_key g)
        || PyStr.falsy (g_machine_id g) || PyStr.falsy (g_request_id g))
    (write_result g false msg_missing_fields EmptyString ;; exit 0) ;;
  when (PyStr.falsy (g_encryption_key g))
    (write_result g false msg_misconfigured EmptyString ;; exit 0).

(** Lines 74-77. *)
Definition paso1 (g : Globals) : M unit :=
  let expected_key := generate_master_key g (g_email g) in
  when (negb (String.eqb (g_master_key g) expected_key))
    (write_result g false msg_invalid EmptyString ;; exit 0).

(** Lines 87-96. *)
Definition paso2 : M LicenseDatabase :=
  f <- read_file ;;
  match f with
  | Ledger db => ret db
  | Garbled _ => raise JSONDecodeError
  | Absent =>
      ts <- now ;;
      ret {| version := "1.0"; lastUpdated := ts; licenses := [] |}
  end.

(** Lines 104-120. [license_entry] is a reference into [db["licenses"]]:
    the step returns the database, the position of the entry in it and
    the entry read there. *)
Definition paso3 (g : Globals) (db : LicenseDatabase)
  : M (LicenseDatabase * nat * LicenseEntry) :=
  match list_find (fun lic => email lic = g_email g) (licenses db) with
  | Some (i, lic) => ret (db, i, lic)
  | None =>
      ts <- now ;;
      let license_entry :=
        {| email := g_email g; masterKey := g_master_key g; createdAt := ts;
           isActive := true; activations := [] |} in
      ret ({| version := version db; lastUpdated := lastUpdated db;
              licenses := licenses db ++ [license_entry] |},
           length (licenses db), license_entry)
  end.

(** Lines 126-136. *)
Definition paso4 (g : Globals) (license_entry : LicenseEntry) : M unit :=
  let already_active_here :=
    existsb (fun act => String.eqb (machineId act) (g_machine_id g))
            (activations license_entry) in
  when already_active_here
    (write_result g true msg_already_active (activation_token g) ;; exit 0).

(** Lines 142-151. *)
Definition paso5 (g : Globals) (license_entry : LicenseEntry) : M unit :=
  let active_count := Z.of_nat (length (activations license_entry)) in
  when (active_count >=? g_max_activations g)%Z
    match activations license_entry with
    | [] => raise IndexError
    | act :: _ =>
        let occupied := default "another computer" (machineName act) in
        write_result g false (msg_limit occupied (g_max_activations g)) EmptyString ;;
        exit 0
    end.

(** Lines 157-163: the append goes through the reference, so the entry
    at position [i] of the database changes. *)
Definition paso6 (g : Globals) (db : LicenseDatabase) (i : nat)
    (license_entry : LicenseEntry) : M LicenseDatabase :=
  ts <- now ;;
  let new_activation :=
    {| machineId := g_machine_id g;
       machineName :=
         Some (if PyStr.falsy (g_machine_name g) then "Unknown" else g_machine_name g);
       activatedAt := ts |} in
  let license_entry' :=
    {| email := email license_entry; masterKey := masterKey license_entry;
       createdAt := createdAt license_entry; isActive := isActive license_entry;
       activations := activations license_entry ++ [new_activation] |} in
  ts' <- now ;;
  ret {| version := version db; lastUpdated := ts';
         licenses := <[i := license_entry']> (licenses db) |}.

(** Line 171: [open(LICENSES_FILE, "w")] truncates the file. *)
Definition paso7_open : M unit := write_file (Garbled EmptyString).

(** Line 172: [json.dump(db, f, indent=2)], and the file is closed. *)
Definition paso7_dump (db : LicenseDatabase) : M unit := write_file (Ledger db).

(** Lines 180-181. *)
Definition paso8 (g : Globals) : M unit :=
  write_result g true msg_activated (activation_token g).

(** Lines 104-163 together: the decision on the database in memory. *)
Definition engine (g : Globals) (db : LicenseDatabase) : M LicenseDatabase :=
  found <- paso3 g db ;;
  let '(db1, i, license_entry) := found in
  paso4 g license_entry ;;
  paso5 g license_entry ;;
  paso6 g db1 i license_entry.

(** The script from line 62 on, for the names [g] read at its top. *)
Definition script (g : Globals) : M unit :=
  validaciones_previas g ;;
  paso1 g ;;
  db <- paso2 ;;
  db' <- engine g db ;;
  paso7_open ;;
  paso7_dump db' ;;
  paso8 g.

(** One run of activate.py. *)
Definition main (environ : gmap string string) : M unit :=
  g <- read_globals environ ;;
  script g.

(* ================================================================== *)
(** ** Requests running side by side                                   *)
(* ================================================================== *)

(** A run touches licenses.json three times: the load at lines 87-89,
    the truncating [open] at line 171 and the [json.dump] at line 172.
    Between two of these another run of the script may be scheduled: the
    script takes no lock.  A process is a run stopped before one of its
    file accesses, with the values it holds in memory. *)
Inductive Proc :=
  | AtStart (environ : gmap string string)           (* nothing read yet *)
  | AtEngine (g : Globals) (db : LicenseDatabase)    (* loaded, line 98 *)
  | AtOpen (g : Globals) (db : LicenseDatabase)      (* decided, line 165 *)
  | AtDump (g : Globals) (db : LicenseDatabase)      (* opened, line 172 *)
  | AtResult (g : Globals)                           (* saved, line 174 *)
  | Halted (r : Res unit).

(** Run [c] and go on at [k], or halt with how [c] ended. *)
Definition continue {A} (c : M A) (k : A -> Proc) : World -> Proc * World :=
  fun w =>
    match c w with
    | (Ret a, w') => (k a, w')
    | (Exit n, w') => (Halted (Exit n), w')
    | (Raise e, w') => (Halted (Raise e), w')
    end.

(** Lines 21-98 as one step: everything up to and including the load. *)
Definition load_phase (environ : gmap string string) : M (Globals * LicenseDatabase) :=
  g <- read_globals environ ;;
  validaciones_previas g ;;
  paso1 g ;;
  db <- paso2 ;;
  ret (g, db).

Definition step_proc (p : Proc) : World -> Proc * World :=
  match p with
  | AtStart environ => continue (load_phase environ) (fun gd => AtEngine gd.1 gd.2)
  | AtEngine g db => continue (engine g db) (AtOpen g)
  | AtOpen g db => continue paso7_open (fun _ => AtDump g db)
  | AtDump g db => continue (paso7_dump db) (fun _ => AtResult g)
  | AtResult g => continue (paso8 g) (fun _ => Halted (Ret tt))
  | Halted r => fun w => (Halted r, w)
  end.

Definition halted (p : Proc) : bool :=
  match p with Halted _ => true | _ => false end.

(** The shared world and the processes; one process moves at a time. *)
Definition Sys : Type := World * list Proc.

Inductive step : Sys -> Sys -> Prop :=
  | step_at (w w' : World) (ps : list Proc) (i : nat) (p p' : Proc) :
      ps !! i = Some p ->
      halted p = false ->
      step_proc p w = (p', w') ->
      step (w, ps) (w', <[i := p']> ps).

(** Let process [i] move once, if it is there. *)
Definition schedule1 (s : Sys) (i : nat) : Sys :=
  match s.2 !! i with
  | Some p => let '(p', w') := step_proc p s.1 in (w', <[i := p']> s.2)
  | None => s
  end.

(** Let the processes move in the order [sched]. *)
Definition run_schedule (sched : list nat) (s : Sys) : Sys :=
  fold_left schedule1 sched s.

(** One process alone, [n] steps. *)
Fixpoint iter_proc (n : nat) (p : Proc) (w : World) : Proc * World :=
  match n with
  | O => (p, w)
  | S n' => let '(p', w') := step_proc p w in iter_proc n' p' w'
  end.

(** A process is inside its read-decide-write sequence from its load to
    its dump. *)
Definition inside (p : Proc) : bool :=
  match p with
  | AtEngine _ _ | AtOpen _ _ | AtDump _ _ => true
  | _ => false
  end.

(** Decided but not yet persisted. *)
Definition deciding (p : Proc) : bool :=
  match p with
  | AtOpen _ _ | AtDump _ _ => true
  | _ => false
  end.

(** The sequence is a critical section when no two processes are inside
    it at once. *)
Definition critical_section (s : Sys) : Prop :=
  forall (i j : nat) (p q : Proc),
    i <> j -> s.2 !! i = Some p -> s.2 !! j = Some q ->
    inside p = true -> inside q = true -> False.

(* ================================================================== *)
(** ** The vocabulary of the specification                             *)
(* ================================================================== *)

(** I3 for one database: no entry holds more than [k] activations. *)
Definition I3 (k : Z) (db : LicenseDatabase) : Prop :=
  Forall (fun lic => Z.of_nat (length (activations lic)) <= k) (licenses db).

(** I3 for what licenses.json holds. *)
Definition file_I3 (k : Z) (f : File) : Prop :=
  match f with
  | Ledger db => I3 k db
  | _ => True
  end.

(** The test of lines 62. *)
Definition fields_missing (g : Globals) : bool :=
  PyStr.falsy (g_email g) || PyStr.falsy (g_master_key g)
  || PyStr.falsy (g_machine_id g) || PyStr.falsy (g_request_id g).

(** The request passes lines 62-77: it reaches the load of the ledger. *)
Definition validated (g : Globals) : bool :=
  negb (fields_missing g) && negb (PyStr.falsy (g_encryption_key g))
  && String.eqb (g_master_key g) (generate_master_key g (g_email g)).

(** The world after [write_result]. *)
Definition report (g : Globals) (success : bool) (message token : string)
    (w : World) : World :=
  set_result (result_path g)
    {| requestId := g_request_id g; success := success; message := message;
       activationToken := token; timestamp := clock w (ticks w) |}
    (tick w).

(** The database that line 92 builds when there is no file. *)
Definition empty_db (ts : string) : LicenseDatabase :=
  {| version := "1.0"; lastUpdated := ts; licenses := [] |}.

(** The entry with this email that the scan of line 105 stops at. *)
Definition find_entry (g : Globals) (db : LicenseDatabase) : option (nat * LicenseEntry) :=
  list_find (fun lic => email lic = g_email g) (licenses db).

(** The scan of line 127 on an entry. *)
Definition recorded (machine : string) (lic : LicenseEntry) : bool :=
  existsb (fun act => String.eqb (machineId act) machine) (activations lic).




(** The entry that line 112 creates. *)
Definition fresh_entry (g : Globals) (ts : string) : LicenseEntry :=
  {| email := g_email g; masterKey := g_master_key g; createdAt := ts;
     isActive := true; activations := [] |}.

(** The activation that line 157 creates. *)
Definition new_activation (g : Globals) (ts : string) : Activation :=
  {| machineId := g_machine_id g;
     machineName :=
       Some (if PyStr.falsy (g_machine_name g) then "Unknown" else g_machine_name g);
     activatedAt := ts |}.

(** The database after lines 162-163: the entry at [i] has one more
    activation and [lastUpdated] is new. *)
Definition appended (g : Globals) (db : LicenseDatabase) (i : nat)
    (lic : LicenseEntry) (ts ts' : string) : LicenseDatabase :=
  {| version := version db; lastUpdated := ts';
     licenses :=
       <[i := {| email := email lic; masterKey := masterKey lic;
                 createdAt := createdAt lic; isActive := isActive lic;
                 activations := activations lic ++ [new_activation g ts] |}]>
         (licenses db) |}.

(** The load of lines 87-96, when it succeeds. *)
Inductive loaded (w : World) : LicenseDatabase -> World -> Prop :=
  | loaded_file (db : LicenseDatabase) :
      licenses_json w = Ledger db -> loaded w db w
  | loaded_fresh :
      licenses_json w = Absent -> loaded w (empty_db (clock w (ticks w))) (tick w).

(** The find-or-create of lines 104-120. *)
Inductive located (g : Globals) (db : LicenseDatabase) (w : World)
  : LicenseDatabase -> nat -> LicenseEntry -> World -> Prop :=
  | located_found (i : nat) (lic : LicenseEntry) :
      find_entry g db = Some (i, lic) -> located g db w db i lic w
  | located_new :
      find_entry g db = None ->
      located g db w
        {| version := version db; lastUpdated := lastUpdated db;
           licenses := licenses db ++ [fresh_entry g (clock w (ticks w))] |}
        (length (licenses db)) (fresh_entry g (clock w (ticks w))) (tick w).

(** The ways a run of the script can go, each with the world it leaves. *)
Inductive outcome (g : Globals) (w : World) : Res unit -> World -> Prop :=
  | out_missing :
      fields_missing g = true ->
      outcome g w (Exit 0) (report g false msg_missing_fields EmptyString w)
  | out_misconfigured :
      fields_missing g = false ->
      PyStr.falsy (g_encryption_key g) = true ->
      outcome g w (Exit 0) (report g false msg_misconfigured EmptyString w)
  | out_invalid :
      fields_missing g = false ->
      PyStr.falsy (g_encryption_key g) = false ->
      String.eqb (g_master_key g) (generate_master_key g (g_email g)) = false ->
      outcome g w (Exit 0) (report g false msg_invalid EmptyString w)
  | out_corrupt (text : string) :
      validated g = true ->
      licenses_json w = Garbled text ->
      outcome g w (Raise JSONDecodeError) w
  | out_already (db db1 : LicenseDatabase) (w1 w2 : World) (i : nat) (lic : LicenseEntry) :
      validated g = true ->
      loaded w db w1 ->
      located g db w1 db1 i lic w2 ->
      recorded (g_machine_id g) lic = true ->
      outcome g w (Exit 0) (report g true msg_already_active (activation_token g) w2)
  | out_index (db db1 : LicenseDatabase) (w1 w2 : World) (i : nat) (lic : LicenseEntry) :
      validated g = true ->
      loaded w db w1 ->
      located g db w1 db1 i lic w2 ->
      recorded (g_machine_id g) lic = false ->
      g_max_activations g <= Z.of_nat (length (activations lic)) ->
      activations lic = [] ->
      outcome g w (Raise IndexError) w2
  | out_limit (db db1 : LicenseDatabase) (w1 w2 : World) (i : nat) (lic : LicenseEntry)
      (act : Activation) (rest : list Activation) :
      validated g = true ->
      loaded w db w1 ->
      located g db w1 db1 i lic w2 ->
      recorded (g_machine_id g) lic = false ->
      g_max_activations g <= Z.of_nat (length (activations lic)) ->
      activations lic = act :: rest ->
      outcome g w (Exit 0)
        (report g false
           (msg_limit (default "another computer" (machineName act)) (g_max_activations g))
           EmptyString w2)
  | out_activated (db db1 : LicenseDatabase) (w1 w2 : World) (i : nat) (lic : LicenseEntry) :
      validated g = true ->
      loaded w db w1 ->
      located g db w1 db1 i lic w2 ->
      recorded (g_machine_id g) lic = false ->
      Z.of_nat (length (activations lic)) < g_max_activations g ->
      outcome g w (Ret tt)
        (report g true msg_activated (activation_token g)
           (set_file
              (Ledger (appended g db1 i lic (clock w2 (ticks w2)) (clock w2 (S (ticks w2)))))
              (tick (tick w2)))).



(** Lines 104-181 for a request [g] that has loaded [db]. *)
Definition after_load (g : Globals) (db : LicenseDatabase) : M unit :=
  db' <- engine g db ;;
  paso7_open ;;
  paso7_dump db' ;;
  paso8 g.

(** Serializable isolation, as the specification asks for it: in every
    state that the processes can reach, the read-decide-write sequence
    is a critical section. *)
Definition isolated (init : Sys) : Prop :=
  forall s, rtc step init s -> critical_section s.


(** A process that has not started and runs under MAX_ACTIVATIONS = k. *)
Definition starts_with_limit (k : Z) (p : Proc) : Prop :=
  exists environ,
    p = AtStart environ /\ py_int (getenv environ "MAX_ACTIVATIONS" "1") = Some k.

(** What a process holds in memory respects the limit [k]. *)
Definition proc_ok (k : Z) (p : Proc) : Prop :=
  match p with
  | AtStart environ => py_int (getenv environ "MAX_ACTIVATIONS" "1") = Some k
  | AtEngine g db => g_max_activations g = k /\ I3 k db
  | AtOpen _ db | AtDump _ db => I3 k db
  | AtResult _ | Halted _ => True
  end.


(** A property of the database that licenses.json holds, when it holds
    one. *)
Definition file_holds (P : LicenseDatabase -> Prop) (f : File) : Prop :=
  match f with
  | Ledger db => P db
  | _ => True
  end.

(** I1: no two entries carry the same email. *)
Definition I1 (db : LicenseDatabase) : Prop :=
  NoDup (email <$> licenses db).

(** I2: within an entry no two activations carry the same machineId. *)
Definition I2 (db : LicenseDatabase) : Prop :=
  Forall (fun lic => NoDup (machineId <$> activations lic)) (licenses db).





(* ================================================================== *)
(** ** Sample worlds and requests                                      *)
(* ================================================================== *)

Definition clock0 (n : nat) : string := "T" +:+ pretty n.

Definition world0 : World :=
  {| licenses_json := Absent; results := ∅; clock := clock0; ticks := 0 |}.

Definition environ_of (email key machine name rid secret k : string)
  : gmap string string :=
  <["INPUT_EMAIL" := email]> (<["INPUT_MASTERKEY" := key]>
  (<["INPUT_MACHINEID" := machine]> (<["INPUT_MACHINENAME" := name]>
  (<["INPUT_REQUESTID" := rid]> (<["ENCRYPTION_KEY" := secret]>
  (<["MAX_ACTIVATIONS" := k]> ∅)))))).

(** Alice on her laptop, and the same license on a second machine. *)
Definition env_alice1 : gmap string string :=
  environ_of " Alice@X.com " "cece-04e5-45f1-f5be" "M1" "Laptop" "r1" "s3cret" "1".
Definition env_alice2 : gmap string string :=
  environ_of "alice@x.com" "CECE04E545F1F5BE" "M2" "Desktop" "r2" "s3cret" "1".

Definition globals_alice1 : Globals :=
  {| g_email := "alice@x.com"; g_master_key := "CECE04E545F1F5BE";
     g_machine_id := "M1"; g_machine_name := "Laptop"; g_request_id := "r1";
     g_encryption_key := "s3cret"; g_max_activations := 1 |}.
Definition globals_alice2 : Globals :=
  {| g_email := "alice@x.com"; g_master_key := "CECE04E545F1F5BE";
     g_machine_id := "M2"; g_machine_name := "Desktop"; g_request_id := "r2";
     g_encryption_key := "s3cret"; g_max_activations := 1 |}.

(** The ledger after Alice's first activation in the empty world. *)
Definition ledger1 : LicenseDatabase :=
  {| version := "1.0"; lastUpdated := "T3";
     licenses :=
       [ {| email := "alice@x.com"; masterKey := "CECE04E545F1F5BE";
            createdAt := "T1"; isActive := true;
            activations :=
              [ {| machineId := "M1"; machineName := Some "Laptop";
                   activatedAt := "T2" |} ] |} ] |}.

(** Alice's request under MAX_ACTIVATIONS=0. *)
Definition globals_zero : Globals :=
  {| g_email := "alice@x.com"; g_master_key := "CECE04E545F1F5BE";
     g_machine_id := "M1"; g_machine_name := "Laptop"; g_request_id := "r1";
     g_encryption_key := "s3cret"; g_max_activations := 0 |}.



(** Two requests for Alice's license, from two machines, side by side. *)
Definition two_requests : Sys := (world0, [AtStart env_alice1; AtStart env_alice2]).

(** The first request loads and decides, the second loads, then both
    run to their end. *)
Definition interleaved : list nat := [0; 0; 1; 0; 0; 0; 1; 1; 1; 1]%nat.

(** The first request runs to its end, then the second. *)
Definition serial : list nat := [0; 0; 0; 0; 0; 1; 1; 1; 1; 1]%nat.




(* ================================================================== *)
(** ** Test vectors                                                    *)
(* ================================================================== *)

Example sha256_empty :
  SHA256.hexdigest EmptyString = "e3b0c44298fc1c149afbf4c8996fb92427ae41e4649b934ca495991b7852b855".
Proof. vm_compute. reflexivity. Qed.

Example sha256_abc :
  SHA256.hexdigest "abc" = "ba7816bf8f01cfea414140de5dae2223b00361a396177a9cb410ff61f20015ad".
Proof. vm_compute. reflexivity. Qed.

Example sha256_a55 :
  SHA256.hexdigest "aaaaaaaaaaaaaaaaaaaaaaaaaaaaaaaaaaaaaaaaaaaaaaaaaaaaaaa"
  = "9f4390f8d30c2dd92ec9f095b65e2b9ae9b0a925a5258e241c9f1e910f734318".
Proof. vm_compute. reflexivity. Qed.

Example sha256_a56 :
  SHA256.hexdigest "aaaaaaaaaaaaaaaaaaaaaaaaaaaaaaaaaaaaaaaaaaaaaaaaaaaaaaaa"
  = "b35439a4ac6f0948b6d6f9e3c6af0f5f590ce20f1bde7090ef7970686ec6738a".
Proof. vm_compute. reflexivity. Qed.

Example sha256_a64 :
  SHA256.hexdigest "aaaaaaaaaaaaaaaaaaaaaaaaaaaaaaaaaaaaaaaaaaaaaaaaaaaaaaaaaaaaaaaa"
  = "ffe054fe7ae0cb6dc65c3af9b61d5209f439851db43d0ba5997337df154668eb".
Proof. vm_compute. reflexivity. Qed.

Example sha256_key_message :
  SHA256.hexdigest "alice@x.com|lifetime|s3cret"
  = "cece04e545f1f5beae23ccdbc088c5ffe0a64e2c5a1bf887c4b5873f2a52c1a6".
Proof. vm_compute. reflexivity. Qed.

Example strip_example : PyStr.strip "  Ab c  " = "Ab c".
Proof. reflexivity. Qed.



Example parse_alice2 : parse_globals env_alice2 = Some globals_alice2.
Proof. vm_compute. reflexivity. Qed.

Example py_int_examples :
  (py_int " -1_0 ", py_int "1__0", py_int EmptyString, py_int "+7", py_int "_1", py_int "1_")
  = (Some (-10), None, None, Some 7, None, None).
Proof. vm_compute. reflexivity. Qed.

(* ================================================================== *)
(** ** The script, case by case                                        *)
(* ================================================================== *)

Lemma write_result_eq (g : Globals) (ok : bool) (msg token : string) (w : World) :
  write_result g ok msg token w = (Ret tt, report g ok msg token w).
Proof. reflexivity. Qed.

Lemma validated_true (g : Globals) :
  validated g = true <->
  fields_missing g = false /\ PyStr.falsy (g_encryption_key g) = false /\
  String.eqb (g_master_key g) (generate_master_key g (g_email g)) = true.
Proof.
  unfold validated. rewrite !andb_true_iff, !negb_true_iff. tauto.
Qed.

Lemma paso2_loaded (w : World) :
  match licenses_json w with
  | Garbled _ => paso2 w = (Raise JSONDecodeError, w)
  | _ => exists db w1, paso2 w = (Ret db, w1) /\ loaded w db w1
  end.
Proof.
  unfold paso2, bind, read_file. destruct (licenses_json w) eqn:E; cbn.
  - eexists _, _. split; [reflexivity|]. now apply loaded_fresh.
  - reflexivity.
  - eexists _, _. split; [reflexivity|]. now apply loaded_file.
Qed.

Lemma paso3_located (g : Globals) (db : LicenseDatabase) (w : World) :
  exists db1 i lic w2,
    paso3 g db w = (Ret (db1, i, lic), w2) /\ located g db w db1 i lic w2.
Proof.
  unfold paso3. destruct (list_find _ _) as [[i lic]|] eqn:E.
  - eexists _, _, _, _. split; [reflexivity|]. now apply located_found.
  - eexists _, _, _, _. split; [reflexivity|]. now apply located_new.
Qed.

Lemma bind_Ret {A B} (c : M A) (k : A -> M B) (w w' : World) (a : A) :
  c w = (Ret a, w') -> bind c k w = k a w'.
Proof. unfold bind. now intros ->. Qed.

Lemma bind_Exit {A B} (c : M A) (k : A -> M B) (w w' : World) (n : Z) :
  c w = (Exit n, w') -> bind c k w = (Exit n, w').
Proof. unfold bind. now intros ->. Qed.

Lemma bind_Raise {A B} (c : M A) (k : A -> M B) (w w' : World) (e : Exn) :
  c w = (Raise e, w') -> bind c k w = (Raise e, w').
Proof. unfold bind. now intros ->. Qed.

Ltac run_script :=
  cbn [bind when negb write_result write_result_file write_file now exit raise ret
       paso7_open paso7_dump paso8 fst snd].

Lemma engine_cases (g : Globals) (db : LicenseDatabase) (w : World) :
  exists db1 i lic w2,
    located g db w db1 i lic w2 /\
    if recorded (g_machine_id g) lic then
      engine g db w = (Exit 0, report g true msg_already_active (activation_token g) w2)
    else if (Z.of_nat (length (activations lic)) >=? g_max_activations g)%Z then
      match activations lic with
      | [] => engine g db w = (Raise IndexError, w2)
      | act :: _ =>
          engine g db w =
          (Exit 0,
           report g false
             (msg_limit (default "another computer" (machineName act))
                (g_max_activations g)) EmptyString w2)
      end
    else
      engine g db w =
      (Ret (appended g db1 i lic (clock w2 (ticks w2)) (clock w2 (S (ticks w2)))),
       tick (tick w2)).
Proof.
  destruct (paso3_located g db w) as (db1 & i & lic & w2 & H3 & Hloc).
  exists db1, i, lic, w2. split; [exact Hloc|].
  unfold engine. rewrite (bind_Ret _ _ _ _ _ H3).
  unfold paso4. fold (recorded (g_machine_id g) lic).
  destruct (recorded (g_machine_id g) lic); run_script; [reflexivity|].
  unfold paso5.
  destruct (Z.of_nat (length (activations lic)) >=? g_max_activations g)%Z; run_script.
  - destruct (activations lic); reflexivity.
  - reflexivity.
Qed.

Lemma script_outcome (g : Globals) (w : World) :
  outcome g w (script g w).1 (script g w).2.
Proof.
  unfold script, validaciones_previas. fold (fields_missing g).
  destruct (fields_missing g) eqn:Hm.
  { run_script. now apply out_missing. }
  destruct (PyStr.falsy (g_encryption_key g)) eqn:Hk.
  { run_script. now apply out_misconfigured. }
  unfold paso1.
  destruct (String.eqb (g_master_key g) (generate_master_key g (g_email g))) eqn:Hv.
  2:{ run_script. now apply out_invalid. }
  assert (Hval : validated g = true) by (apply validated_true; auto).
  run_script.
  pose proof (paso2_loaded w) as H2.
  destruct (licenses_json w) as [ | text | dbf] eqn:Ef.
  2:{ rewrite (bind_Raise _ _ _ _ _ H2). eapply out_corrupt; eauto. }
  all: destruct H2 as (db & w1 & H2 & Hl); rewrite (bind_Ret _ _ _ _ _ H2).
  all: destruct (engine_cases g db w1) as (db1 & i & lic & w2 & Hloc & He).
  all: destruct (recorded (g_machine_id g) lic) eqn:Hr;
    [ rewrite (bind_Exit _ _ _ _ _ He); eapply out_already; eauto | ].
  all: destruct (Z.of_nat (length (activations lic)) >=? g_max_activations g)%Z eqn:Hc.
  all: try (apply Z.geb_le in Hc; destruct (activations lic) as [|act rest] eqn:Ea;
            [ rewrite (bind_Raise _ _ _ _ _ He); eapply out_index; eauto; rewrite Ea; exact Hc
            | rewrite (bind_Exit _ _ _ _ _ He); eapply out_limit; eauto; rewrite Ea; exact Hc ]).
  all: rewrite (bind_Ret _ _ _ _ _ He); run_script.
  all: eapply out_activated; eauto.
  all: rewrite Z.geb_leb in Hc; apply Z.leb_gt in Hc; exact Hc.
Qed.



(** The steps before the save leave licenses.json, the result files of
    other requests and the clock function alone. *)
Lemma loaded_world (w w1 : World) (db : LicenseDatabase) :
  loaded w db w1 ->
  licenses_json w1 = licenses_json w /\ results w1 = results w /\ clock w1 = clock w.
Proof. now destruct 1. Qed.

Lemma located_world (g : Globals) (db db1 : LicenseDatabase) (w w2 : World)
    (i : nat) (lic : LicenseEntry) :
  located g db w db1 i lic w2 ->
  licenses_json w2 = licenses_json w /\ results w2 = results w /\ clock w2 = clock w.
Proof. now destruct 1. Qed.


(** Unless it returns normally, a run leaves licenses.json as it was. *)
Lemma outcome_file (g : Globals) (w w' : World) (r : Res unit) :
  outcome g w r w' -> r <> Ret tt -> licenses_json w' = licenses_json w.
Proof.
  intros Ho Hr.
  destruct Ho as [ | | | | ? ? ? ? ? ? ? Hl Hloc | ? ? ? ? ? ? ? Hl Hloc
                 | ? ? ? ? ? ? ? ? ? Hl Hloc | ]; try reflexivity; try congruence.
  all: destruct (loaded_world _ _ _ Hl) as (? & ? & ?);
    destruct (located_world _ _ _ _ _ _ _ Hloc) as (? & ? & ?); cbn; congruence.
Qed.

Lemma script_file (g : Globals) (w : World) :
  (script g w).1 <> Ret tt -> licenses_json (script g w).2 = licenses_json w.
Proof. apply (outcome_file g), script_outcome. Qed.

(** What find-or-create hands on: the entry sits at [i], it carries the
    email of the request, and no earlier entry does. *)
Lemma located_entry (g : Globals) (db db1 : LicenseDatabase) (w w2 : World)
    (i : nat) (lic : LicenseEntry) :
  located g db w db1 i lic w2 ->
  licenses db1 !! i = Some lic /\ email lic = g_email g /\
  (forall j y, licenses db1 !! j = Some y -> (j < i)%nat -> email y <> g_email g).
Proof.
  destruct 1 as [i lic Hf | Hf]; unfold find_entry in Hf.
  - apply list_find_Some in Hf. destruct Hf as (H1 & H2 & H3). repeat split; eauto.
  - apply list_find_None in Hf. cbn. repeat split.
    + rewrite lookup_app_r by lia. now rewrite Nat.sub_diag.
    + intros j y Hj Hlt. rewrite lookup_app_l in Hj by exact Hlt.
      rewrite Forall_forall in Hf. apply Hf. eapply list_elem_of_lookup_2; eauto.
Qed.

(** A created entry has no activations; a found one is the one found. *)
Lemma located_cases (g : Globals) (db db1 : LicenseDatabase) (w w2 : World)
    (i : nat) (lic : LicenseEntry) :
  located g db w db1 i lic w2 ->
  (find_entry g db = Some (i, lic) /\ db1 = db /\ w2 = w) \/
  (find_entry g db = None /\ activations lic = []).
Proof. destruct 1; [left|right]; auto. Qed.

Lemma loaded_I3 (k : Z) (w w1 : World) (db : LicenseDatabase) :
  file_I3 k (licenses_json w) -> loaded w db w1 -> I3 k db.
Proof.
  intros Hf [db' E | E].
  - now rewrite E in Hf.
  - apply Forall_nil_2.
Qed.

Lemma located_I3 (k : Z) (g : Globals) (db db1 : LicenseDatabase) (w w2 : World)
    (i : nat) (lic : LicenseEntry) :
  0 <= k -> I3 k db -> located g db w db1 i lic w2 -> I3 k db1.
Proof.
  intros Hk Hdb [? ? _ | _]; [exact Hdb|].
  unfold I3. cbn. apply Forall_app. split; [exact Hdb|].
  apply Forall_singleton. cbn. lia.
Qed.

Lemma appended_I3 (k : Z) (g : Globals) (db1 : LicenseDatabase) (i : nat)
    (lic : LicenseEntry) (ts ts' : string) :
  I3 k db1 -> Z.of_nat (length (activations lic)) < k ->
  I3 k (appended g db1 i lic ts ts').
Proof.
  intros Hdb Hlt. unfold I3, appended. cbn.
  apply Forall_insert; [exact Hdb|]. cbn. rewrite length_app. cbn. lia.
Qed.

(** The engine keeps I3 whenever it hands a database on to the save. *)
Lemma engine_I3 (k : Z) (g : Globals) (db db' : LicenseDatabase) (w w' : World) :
  g_max_activations g = k -> I3 k db -> engine g db w = (Ret db', w') -> I3 k db'.
Proof.
  intros Hk Hdb He.
  destruct (engine_cases g db w) as (db1 & i & lic & w2 & Hloc & Hc).
  destruct (recorded _ lic); [congruence|].
  destruct (Z.of_nat (length (activations lic)) >=? g_max_activations g)%Z eqn:Hge.
  { destruct (activations lic); congruence. }
  rewrite Z.geb_leb in Hge. apply Z.leb_gt in Hge.
  rewrite Hc in He. injection He as <- _.
  apply appended_I3; [|lia].
  eapply located_I3; eauto. lia.
Qed.

Lemma script_I3 (k : Z) (g : Globals) (w : World) :
  g_max_activations g = k ->
  file_I3 k (licenses_json w) -> file_I3 k (licenses_json (script g w).2).
Proof.
  intros Hk Hf. pose proof (script_outcome g w) as Ho.
  destruct ((script g w).1) as [[]| |] eqn:Er.
  2,3: rewrite script_file by (rewrite Er; discriminate); exact Hf.
  inversion Ho as [ | | | | | | | db db1 w1 w2 i lic Hv Hl Hloc Hr Hlt Heq1 Heq2 ];
    try congruence.
  cbn. apply appended_I3; [|lia].
  eapply located_I3; [lia| |exact Hloc]. eapply loaded_I3; eauto.
Qed.






(** A run that returns normally has saved the appended database and
    reported the activation. *)
Lemma script_Ret (g : Globals) (w : World) :
  (script g w).1 = Ret tt ->
  validated g = true /\
  exists db db1 w1 w2 i lic,
    loaded w db w1 /\ located g db w1 db1 i lic w2 /\
    recorded (g_machine_id g) lic = false /\
    Z.of_nat (length (activations lic)) < g_max_activations g /\
    (script g w).2 =
    report g true msg_activated (activation_token g)
      (set_file
         (Ledger (appended g db1 i lic (clock w2 (ticks w2)) (clock w2 (S (ticks w2)))))
         (tick (tick w2))).
Proof.
  intros Hr. pose proof (script_outcome g w) as Ho. rewrite Hr in Ho.
  inversion Ho as [ | | | | | | | db db1 w1 w2 i lic Hv Hl Hloc Hrec Hlt Heq ].
  split; [exact Hv|]. exists db, db1, w1, w2, i, lic. auto.
Qed.







Lemma append_cons (c : ascii) (a b : string) : String c a +:+ b = String c (a +:+ b).
Proof. reflexivity. Qed.

Lemma append_length (a b : string) :
  String.length (a +:+ b) = (String.length a + String.length b)%nat.
Proof.
  induction a as [|c a IH]; [reflexivity|].
  rewrite append_cons. cbn [String.length]. now rewrite IH.
Qed.





Lemma hexdigest_length (s : string) : String.length (SHA256.hexdigest s) = 64%nat.
Proof.
  unfold SHA256.hexdigest, SHA256.hex_state.
  generalize (SHA256.digest (SHA256.bytes_of_string s)). intros d.
  rewrite !append_length. reflexivity.
Qed.

(* ================================================================== *)
(** ** The claims                                                      *)
(* ================================================================== *)

Lemma world1_ledger :
  licenses_json (script globals_alice1 world0).2 = Ledger ledger1.
Proof. vm_compute. reflexivity. Qed.

(** C2. One run of the activation logic preserves I3: when
    maxActivations >= 1 and every entry of the ledger on disk has at
    most maxActivations activations, the same holds of the ledger after
    the run; and whenever the decision on the database in memory hands a
    database on to the save, that database satisfies I3 too (the append
    only fires below the limit, every other branch appends nothing). *)
Theorem C2_run_preserves_I3 (g : Globals) (w : World) :
  1 <= g_max_activations g ->
  file_I3 (g_max_activations g) (licenses_json w) ->
  file_I3 (g_max_activations g) (licenses_json (script g w).2) /\
  (forall db db' w1 w2,
      I3 (g_max_activations g) db -> engine g db w1 = (Ret db', w2) ->
      I3 (g_max_activations g) db').
Proof.
  intros _ Hf. split.
  - now apply script_I3.
  - intros db db' w1 w2 Hdb He. eapply engine_I3; eauto.
Qed.

Lemma C2_witness :
  file_I3 1 (licenses_json (script globals_alice2 (script globals_alice1 world0).2).2).
Proof.
  refine (proj1 (C2_run_preserves_I3 globals_alice2 (script globals_alice1 world0).2 _ _)).
  - cbn. lia.
  - rewrite world1_ledger. unfold file_I3, I3. cbn.
    constructor; [cbn; lia | constructor].
Defined.







(** C10. With maxActivations >= 1 no run raises IndexError: whenever the
    limit branch is taken the entry has an activation, so the read of
    activations[0] at line 144 is in bounds.  The precondition is needed:
    with maxActivations <= 0 a validated request for an email that has no
    entry yet (no file, or a ledger without it) reaches that read with an
    empty list and dies of IndexError. *)
Theorem C10_first_activation_in_bounds (g : Globals) (w : World) :
  (1 <= g_max_activations g -> (script g w).1 <> Raise IndexError) /\
  (g_max_activations g <= 0 ->
   validated g = true ->
   (licenses_json w = Absent \/
    exists db, licenses_json w = Ledger db /\ find_entry g db = None) ->
   (script g w).1 = Raise IndexError).
Proof.
  pose proof (script_outcome g w) as Ho. split.
  - intros Hk Hr. rewrite Hr in Ho.
    inversion Ho as [ | | | | | db db1 w1 w2 i lic Hv Hl Hloc Hrec Hle Ha | | ].
    rewrite Ha in Hle. cbn in Hle. lia.
  - intros Hk Hv Hfile.
    assert (Hnew : forall db w1 db1 i lic w2,
               loaded w db w1 -> located g db w1 db1 i lic w2 -> activations lic = []).
    { intros db w1 db1 i lic w2 Hl Hloc.
      destruct (located_cases _ _ _ _ _ _ _ Hloc) as [(Hfind & _) | (_ & Ha)]; [|exact Ha].
      exfalso. destruct Hl as [db' E | E].
      - destruct Hfile as [E' | (db2 & E' & Hnone)]; rewrite E in E'; [discriminate|].
        injection E' as ->. congruence.
      - discriminate Hfind. }
    apply validated_true in Hv as Hv'. destruct Hv' as (Hm & Hs & Hkey).
    destruct Ho as [ Hm' | _ Hs' | _ _ Hkey' | text _ E
                   | db db1 w1 w2 i lic _ Hl Hloc Hrec
                   | db db1 w1 w2 i lic _ Hl Hloc Hrec Hle Ha
                   | db db1 w1 w2 i lic act rest _ Hl Hloc Hrec Hle Ha
                   | db db1 w1 w2 i lic _ Hl Hloc Hrec Hlt ]; try congruence.
    + destruct Hfile as [E' | (db2 & E' & _)]; congruence.
    + pose proof (Hnew _ _ _ _ _ _ Hl Hloc) as Ha. unfold recorded in Hrec.
      rewrite Ha in Hrec. discriminate.
    + pose proof (Hnew _ _ _ _ _ _ Hl Hloc). congruence.
    + lia.
Qed.

Lemma C10_witness :
  (script globals_alice1 world0).1 <> Raise IndexError /\
  (script globals_zero world0).1 = Raise IndexError.
Proof.
  split.
  - refine (proj1 (C10_first_activation_in_bounds globals_alice1 world0) _).
    cbn. lia.
  - refine (proj2 (C10_first_activation_in_bounds globals_zero world0) _ _ _).
    + cbn. lia.
    + vm_compute. reflexivity.
    + left. reflexivity.
Defined.








(* ================================================================== *)
(** ** Requests side by side: steps, schedules, invariants             *)
(* ================================================================== *)

Lemma bind_assoc {A B C} (c : M A) (f : A -> M B) (k : B -> M C) (w : World) :
  bind (bind c f) k w = bind c (fun a => bind (f a) k) w.
Proof. unfold bind. destruct (c w) as [[a| |] w']; reflexivity. Qed.

Lemma bind_ext {A B} (c : M A) (f k : A -> M B) (w : World) :
  (forall a w', f a w' = k a w') -> bind c f w = bind c k w.
Proof. intros H. unfold bind. destruct (c w) as [[a| |] w']; auto. Qed.

(** The script is its load phase followed by the rest. *)
Lemma main_phases (environ : gmap string string) (w : World) :
  main environ w = bind (load_phase environ) (fun gd => after_load gd.1 gd.2) w.
Proof.
  unfold main, load_phase, script. rewrite bind_assoc.
  apply bind_ext. intros g w1. rewrite !bind_assoc.
  apply bind_ext. intros _ w2. rewrite !bind_assoc.
  apply bind_ext. intros _ w3. rewrite !bind_assoc.
  apply bind_ext. intros db w4. reflexivity.
Qed.

(** Neither the load phase nor the engine writes licenses.json. *)
Lemma load_phase_file (environ : gmap string string) (w w' : World)
    (r : Res (Globals * LicenseDatabase)) :
  load_phase environ w = (r, w') -> licenses_json w' = licenses_json w.
Proof.
  unfold load_phase, read_globals.
  destruct (parse_globals environ) as [g|]; [|intros [= _ <-]; reflexivity].
  run_script. unfold validaciones_previas. fold (fields_missing g).
  destruct (fields_missing g); run_script; [intros [= _ <-]; reflexivity|].
  destruct (PyStr.falsy (g_encryption_key g)); run_script; [intros [= _ <-]; reflexivity|].
  unfold paso1.
  destruct (String.eqb _ _); run_script; [|intros [= _ <-]; reflexivity].
  pose proof (paso2_loaded w) as H2.
  destruct (licenses_json w) as [ | text | db0] eqn:E.
  2:{ rewrite (bind_Raise _ _ _ _ _ H2). intros [= _ <-]. exact E. }
  all: destruct H2 as (db & w1 & H2 & Hl); rewrite (bind_Ret _ _ _ _ _ H2).
  all: intros [= _ <-]; destruct (loaded_world _ _ _ Hl) as (-> & _); exact E.
Qed.

Lemma engine_file (g : Globals) (db : LicenseDatabase) (w w' : World)
    (r : Res LicenseDatabase) :
  engine g db w = (r, w') -> licenses_json w' = licenses_json w.
Proof.
  destruct (engine_cases g db w) as (db1 & i & lic & w2 & Hloc & Hc).
  destruct (located_world _ _ _ _ _ _ _ Hloc) as (Hf & _).
  destruct (recorded _ lic); [rewrite Hc; intros [= _ <-]; exact Hf|].
  destruct (Z.of_nat (length (activations lic)) >=? g_max_activations g)%Z.
  - destruct (activations lic); rewrite Hc; intros [= _ <-]; exact Hf.
  - rewrite Hc. intros [= _ <-]. exact Hf.
Qed.

(** What the load phase hands on under MAX_ACTIVATIONS = k. *)
Lemma load_phase_ok (k : Z) (environ : gmap string string) (w w' : World)
    (g : Globals) (db : LicenseDatabase) :
  py_int (getenv environ "MAX_ACTIVATIONS" "1") = Some k ->
  file_I3 k (licenses_json w) ->
  load_phase environ w = (Ret (g, db), w') ->
  g_max_activations g = k /\ I3 k db.
Proof.
  intros Hk Hf. unfold load_phase, read_globals, parse_globals. rewrite Hk. cbn [mbind option_bind].
  match goal with |- context [ret ?g0] => set (g1 := g0) end.
  run_script. unfold validaciones_previas. fold (fields_missing g1).
  destruct (fields_missing g1); run_script; [discriminate|].
  destruct (PyStr.falsy (g_encryption_key g1)); run_script; [discriminate|].
  unfold paso1.
  destruct (String.eqb _ _); run_script; [|discriminate].
  pose proof (paso2_loaded w) as H2.
  destruct (licenses_json w) as [ | text | db0] eqn:E.
  2:{ rewrite (bind_Raise _ _ _ _ _ H2). discriminate. }
  all: destruct H2 as (db' & w1 & H2 & Hl); rewrite (bind_Ret _ _ _ _ _ H2).
  all: intros [= <- <- _]; split; [reflexivity|].
  all: eapply loaded_I3; [|exact Hl]; rewrite E; exact Hf.
Qed.

(** One step of one process keeps the limit, on disk and in memory. *)
Lemma step_proc_ok (k : Z) (p p' : Proc) (w w' : World) :
  proc_ok k p -> file_I3 k (licenses_json w) ->
  step_proc p w = (p', w') ->
  proc_ok k p' /\ file_I3 k (licenses_json w').
Proof.
  intros Hp Hf. destruct p as [environ | g db | g db | g db | g | r]; cbn [step_proc proc_ok] in *.
  - unfold continue. destruct (load_phase environ w) as [[[g db]| |] w1] eqn:E;
      intros [= <- <-]; pose proof (load_phase_file _ _ _ _ E) as ->.
    + split; [|exact Hf]. eapply load_phase_ok; eauto.
    + now split.
    + now split.
  - destruct Hp as [Hk Hdb]. unfold continue.
    destruct (engine g db w) as [[db'| |] w1] eqn:E;
      intros [= <- <-]; pose proof (engine_file _ _ _ _ _ E) as ->.
    + split; [|exact Hf]. eapply engine_I3; eauto.
    + now split.
    + now split.
  - intros [= <- <-]. now split.
  - intros [= <- <-]. now split.
  - intros [= <- <-]. now split.
  - intros [= <- <-]. now split.
Qed.

(** The limit holds in every state the processes reach. *)
Lemma step_ok (k : Z) (s s' : Sys) :
  step s s' ->
  file_I3 k (licenses_json s.1) /\ Forall (proc_ok k) s.2 ->
  file_I3 k (licenses_json s'.1) /\ Forall (proc_ok k) s'.2.
Proof.
  intros [w w' ps i p p' Hi _ Hs] [Hf Hps]. cbn in *.
  assert (Hp : proc_ok k p).
  { rewrite Forall_forall in Hps. apply Hps. eapply list_elem_of_lookup_2; eauto. }
  destruct (step_proc_ok k p p' w w' Hp Hf Hs) as [Hp' Hf'].
  split; [exact Hf'|]. now apply Forall_insert.
Qed.

Lemma reach_ok (k : Z) (s s' : Sys) :
  rtc step s s' ->
  file_I3 k (licenses_json s.1) /\ Forall (proc_ok k) s.2 ->
  file_I3 k (licenses_json s'.1) /\ Forall (proc_ok k) s'.2.
Proof.
  induction 1 as [s | s s1 s2 Hstep _ IH]; [auto|].
  intros H. apply IH. eapply step_ok; eauto.
Qed.

(** A schedule is a way for the processes to move. *)
Lemma schedule1_steps (s : Sys) (i : nat) : rtc step s (schedule1 s i).
Proof.
  destruct s as [w ps]. unfold schedule1. cbn [fst snd].
  destruct (ps !! i) as [p|] eqn:Hi; [|apply rtc_refl].
  destruct (step_proc p w) as [p' w'] eqn:Hs.
  destruct (halted p) eqn:Hh.
  - destruct p; try discriminate. cbn in Hs. injection Hs as <- <-.
    rewrite list_insert_id by exact Hi. apply rtc_refl.
  - apply rtc_once. eapply step_at; eauto.
Qed.

Lemma run_schedule_steps (sched : list nat) (s : Sys) :
  rtc step s (run_schedule sched s).
Proof.
  revert s. induction sched as [|i sched IH]; intros s; cbn; [apply rtc_refl|].
  eapply rtc_trans; [apply schedule1_steps|apply IH].
Qed.







(** One process alone, let run for its five steps, is one run of the
    script. *)
Lemma alone_is_main (environ : gmap string string) (w : World) :
  iter_proc 5 (AtStart environ) w = (Halted (main environ w).1, (main environ w).2).
Proof.
  rewrite main_phases. cbn [iter_proc step_proc]. unfold continue.
  destruct (load_phase environ w) as [[[g db]| |] w1] eqn:El.
  - rewrite (bind_Ret _ _ _ _ _ El). cbn [fst snd step_proc]. unfold after_load, continue.
    destruct (engine g db w1) as [[db'| |] w2] eqn:Ee.
    + rewrite (bind_Ret _ _ _ _ _ Ee). reflexivity.
    + rewrite (bind_Exit _ _ _ _ _ Ee). reflexivity.
    + rewrite (bind_Raise _ _ _ _ _ Ee). reflexivity.
  - rewrite (bind_Exit _ _ _ _ _ El). reflexivity.
  - rewrite (bind_Raise _ _ _ _ _ El). reflexivity.
Qed.

(** C1, as the claim states it, fails: nothing keeps two requests apart.
    With Alice's license requested from two machines at once, the second
    request can load the ledger while the first has decided and not yet
    saved; both are then inside the read-decide-write sequence.  Run to
    the end, that interleaving reports success to both requests under
    maxActivations = 1 and leaves a ledger that records the second
    machine alone, which the serial order does not do: there the second
    request is refused. *)
Lemma C1_counterexample :
  ~ isolated two_requests /\
  (deciding <$> (run_schedule [0; 0; 1]%nat two_requests).2 !! 0%nat = Some true /\
   inside <$> (run_schedule [0; 0; 1]%nat two_requests).2 !! 1%nat = Some true) /\
  ((run_schedule interleaved two_requests).2 = [Halted (Ret tt); Halted (Ret tt)] /\
   success <$> results (run_schedule interleaved two_requests).1 !! "results/r1.json"
     = Some true /\
   success <$> results (run_schedule interleaved two_requests).1 !! "results/r2.json"
     = Some true /\
   exists db lic,
     licenses_json (run_schedule interleaved two_requests).1 = Ledger db /\
     licenses db = [lic] /\ List.map machineId (activations lic) = ["M2"]) /\
  ((run_schedule serial two_requests).2 = [Halted (Ret tt); Halted (Exit 0)] /\
   success <$> results (run_schedule serial two_requests).1 !! "results/r2.json"
     = Some false).
Proof.
  assert (E0 : inside <$> (run_schedule [0; 0; 1]%nat two_requests).2 !! 0%nat = Some true)
    by (vm_compute; reflexivity).
  assert (E1 : inside <$> (run_schedule [0; 0; 1]%nat two_requests).2 !! 1%nat = Some true)
    by (vm_compute; reflexivity).
  split; [|split; [|split]].
  - intros H.
    pose proof (H _ (run_schedule_steps [0; 0; 1]%nat two_requests)) as Hc.
    revert E0 E1 Hc. generalize (run_schedule [0; 0; 1]%nat two_requests).
    intros [w3 ps3] E0 E1 Hc. cbn [fst snd] in *.
    destruct (ps3 !! 0%nat) as [p|] eqn:Ep; [|discriminate].
    destruct (ps3 !! 1%nat) as [q|] eqn:Eq; [|discriminate].
    cbn in E0, E1. injection E0 as E0. injection E1 as E1.
    exact (Hc 0%nat 1%nat p q ltac:(discriminate) Ep Eq E0 E1).
  - split; [vm_compute; reflexivity|exact E1].
  - split; [vm_compute; reflexivity|]. split; [vm_compute; reflexivity|].
    split; [vm_compute; reflexivity|].
    eexists _, _. split; [vm_compute; reflexivity|]. split; reflexivity.
  - split; vm_compute; reflexivity.
Qed.

(** C1, amended.  The script takes no lock; still, with every file
    access taken as one step and every request run under the same
    maxActivations, I3 holds of licenses.json in every state that any
    interleaving of the requests reaches. *)
Theorem C1_limit_under_every_interleaving
    (k : Z) (w : World) (ps : list Proc) (s : Sys) :
  file_I3 k (licenses_json w) ->
  Forall (starts_with_limit k) ps ->
  rtc step (w, ps) s ->
  file_I3 k (licenses_json s.1).
Proof.
  intros Hf Hps Hreach.
  refine (proj1 (reach_ok k (w, ps) s Hreach _)). split; [exact Hf|].
  cbn. eapply Forall_impl; [exact Hps|].
  intros p (environ & -> & Hk). exact Hk.
Qed.

Lemma C1_witness :
  file_I3 1 (licenses_json (run_schedule interleaved two_requests).1).
Proof.
  refine (C1_limit_under_every_interleaving 1 world0
            [AtStart env_alice1; AtStart env_alice2]
            (run_schedule interleaved two_requests) I _ (run_schedule_steps _ _)).
  constructor; [|constructor; [|constructor]].
  - exists env_alice1. split; [reflexivity|vm_compute; reflexivity].
  - exists env_alice2. split; [reflexivity|vm_compute; reflexivity].
Defined.




(* ================================================================== *)
(** ** Further properties of the script                                *)
(* ================================================================== *)

(** *** Lines 21-27 and 62-77: what happens before the ledger is read *)












(** *** Lines 45-56: the result file *)

(** The result of a run, with what it says about the request. *)
Lemma outcome_result_valid (g : Globals) (w w' : World) (r : Res unit) :
  outcome g w r w' ->
  results w' = results w \/
  exists ok msg tok ts,
    results w' =
    <[result_path g :=
        {| requestId := g_request_id g; success := ok; message := msg;
           activationToken := tok; timestamp := ts |}]> (results w) /\
    (ok = true -> validated g = true /\ tok = activation_token g) /\
    (ok = false -> tok = EmptyString).
Proof.
  intros Ho.
  destruct Ho as [ | | | | ? ? ? ? ? ? Hv Hl Hloc | ? ? ? ? ? ? Hv Hl Hloc
                 | ? ? ? ? ? ? ? ? Hv Hl Hloc | ? ? ? ? ? ? Hv Hl Hloc ].
  4: now left.
  4-7: destruct (loaded_world _ _ _ Hl) as (_ & Hr1 & _);
       destruct (located_world _ _ _ _ _ _ _ Hloc) as (_ & Hr2 & _).
  all: try (right; eexists _, _, _, _; split; [cbn; rewrite ?Hr2, ?Hr1; reflexivity|];
            split; [intros; try discriminate; auto | intros; try discriminate; auto]).
  left. congruence.
Qed.



(** X5. No token without a valid key: when a run writes the result of
    its request, the result carries the request id; if it reports
    success the request passed the checks of lines 62-77 and the token
    has 64 characters; if it reports failure the token is empty. *)
Theorem X5_token_only_for_valid_requests (g : Globals) (w : World) (r : ResultJson) :
  results w !! result_path g = None ->
  results (script g w).2 !! result_path g = Some r ->
  requestId r = g_request_id g /\
  (success r = true ->
   validated g = true /\ String.length (activationToken r) = 64%nat) /\
  (success r = false -> activationToken r = EmptyString).
Proof.
  intros Hnone Hr.
  destruct (outcome_result_valid g w _ _ (script_outcome g w))
    as [Heq | (ok & msg & tok & ts & Heq & Hok & Hfail)]; rewrite Heq in Hr.
  - congruence.
  - rewrite lookup_insert_eq in Hr. injection Hr as <-. cbn.
    split; [reflexivity|]. split.
    + intros E. destruct (Hok E) as [Hv ->]. split; [exact Hv|].
      apply hexdigest_length.
    + exact Hfail.
Qed.

Lemma X5_witness :
  exists r,
    results (script globals_alice1 world0).2 !! result_path globals_alice1 = Some r /\
    requestId r = "r1" /\ String.length (activationToken r) = 64%nat.
Proof.
  assert (E : exists r,
             results (script globals_alice1 world0).2 !! result_path globals_alice1 = Some r /\
             success r = true).
  { eexists. split; [vm_compute; reflexivity|reflexivity]. }
  destruct E as (r & Hr & Hok). exists r. split; [exact Hr|].
  destruct (X5_token_only_for_valid_requests globals_alice1 world0 r eq_refl Hr)
    as (Hid & Hs & _).
  split; [exact Hid|]. exact (proj2 (Hs Hok)).
Defined.

(** *** Lines 104-172: what a run does to the ledger *)

Lemma recorded_false (m : string) (lic : LicenseEntry) :
  recorded m lic = false -> (m ∉ machineId <$> activations lic).
Proof.
  unfold recorded. induction (activations lic) as [|a l IH]; cbn; intros H.
  - apply not_elem_of_nil.
  - apply orb_false_iff in H. destruct H as [Ha Hl].
    apply String.eqb_neq in Ha. rewrite not_elem_of_cons. split; [congruence|auto].
Qed.

(** The emails of the entries after the append of line 162. *)
Lemma appended_emails (g : Globals) (db db1 : LicenseDatabase) (w w2 : World)
    (i : nat) (lic : LicenseEntry) (ts ts' : string) :
  located g db w db1 i lic w2 ->
  email <$> licenses (appended g db1 i lic ts ts') = email <$> licenses db1.
Proof.
  intros Hloc. destruct (located_entry _ _ _ _ _ _ _ Hloc) as (Hi & _ & _).
  unfold appended. cbn. rewrite list_fmap_insert. cbn.
  apply list_insert_id. rewrite list_lookup_fmap, Hi. reflexivity.
Qed.

Lemma located_I1 (g : Globals) (db db1 : LicenseDatabase) (w w2 : World)
    (i : nat) (lic : LicenseEntry) :
  I1 db -> located g db w db1 i lic w2 -> I1 db1.
Proof.
  intros Hdb [? ? _ | Hnone]; [exact Hdb|].
  unfold I1. cbn. rewrite fmap_app. cbn. apply NoDup_app. split; [exact Hdb|]. split.
  - intros x Hx Hin. apply list_elem_of_singleton in Hin. subst x.
    unfold find_entry in Hnone. apply list_find_None in Hnone.
    apply list_elem_of_fmap in Hx. destruct Hx as (e & He & Hin).
    rewrite Forall_forall in Hnone. exact (Hnone e Hin (eq_sym He)).
  - apply NoDup_singleton.
Qed.

Lemma located_I2 (g : Globals) (db db1 : LicenseDatabase) (w w2 : World)
    (i : nat) (lic : LicenseEntry) :
  I2 db -> located g db w db1 i lic w2 -> I2 db1.
Proof.
  intros Hdb [? ? _ | _]; [exact Hdb|].
  unfold I2. cbn. apply Forall_app. split; [exact Hdb|].
  apply Forall_singleton. cbn. apply NoDup_nil_2.
Qed.

Lemma loaded_holds (P : LicenseDatabase -> Prop) (w w1 : World) (db : LicenseDatabase) :
  (forall ts, P (empty_db ts)) ->
  file_holds P (licenses_json w) -> loaded w db w1 -> P db.
Proof.
  intros Hempty Hf [db' E | E]; [now rewrite E in Hf | apply Hempty].
Qed.

(** X6. A run keeps I1: when no two entries of licenses.json carry the
    same email before the run, none do after it.  An entry is created
    only for an email that the scan of line 105 did not find. *)
Theorem X6_run_keeps_emails_unique (g : Globals) (w : World) :
  file_holds I1 (licenses_json w) ->
  file_holds I1 (licenses_json (script g w).2).
Proof.
  intros Hf. destruct ((script g w).1) as [[]| |] eqn:Er.
  2,3: rewrite script_file by (rewrite Er; discriminate); exact Hf.
  destruct (script_Ret g w Er)
    as (_ & db & db1 & w1 & w2 & i & lic & Hl & Hloc & _ & _ & ->).
  cbn. unfold I1. rewrite (appended_emails _ _ _ _ _ _ _ _ _ Hloc).
  eapply located_I1; [|exact Hloc].
  eapply (loaded_holds I1); [|exact Hf|exact Hl]. intros ts. apply NoDup_nil_2.
Qed.

Lemma X6_witness :
  file_holds I1 (licenses_json (script globals_alice1 world0).2).
Proof.
  refine (X6_run_keeps_emails_unique globals_alice1 world0 _). exact I.
Defined.

(** X7. A run keeps I2: when within every entry of licenses.json no two
    activations carry the same machineId before the run, the same holds
    after it.  The append of line 162 is reached only when the scan of
    line 127 did not find the machine. *)
Theorem X7_run_keeps_machines_unique (g : Globals) (w : World) :
  file_holds I2 (licenses_json w) ->
  file_holds I2 (licenses_json (script g w).2).
Proof.
  intros Hf. destruct ((script g w).1) as [[]| |] eqn:Er.
  2,3: rewrite script_file by (rewrite Er; discriminate); exact Hf.
  destruct (script_Ret g w Er)
    as (_ & db & db1 & w1 & w2 & i & lic & Hl & Hloc & Hrec & _ & ->).
  cbn. assert (H1 : I2 db1).
  { eapply located_I2; [|exact Hloc].
    eapply (loaded_holds I2); [|exact Hf|exact Hl]. intros ts. apply Forall_nil_2. }
  destruct (located_entry _ _ _ _ _ _ _ Hloc) as (Hi & _ & _).
  unfold I2, appended. cbn. apply Forall_insert; [exact H1|]. cbn.
  rewrite fmap_app. cbn. apply NoDup_app. split; [|split].
  - unfold I2 in H1. rewrite Forall_forall in H1. apply H1.
    eapply list_elem_of_lookup_2; eauto.
  - intros x Hx Hin. apply list_elem_of_singleton in Hin. subst x.
    exact (recorded_false _ _ Hrec Hx).
  - apply NoDup_singleton.
Qed.

Lemma X7_witness :
  file_holds I2 (licenses_json (script globals_alice2 (script globals_alice1 world0).2).2).
Proof.
  refine (X7_run_keeps_machines_unique globals_alice2 (script globals_alice1 world0).2 _).
  rewrite world1_ledger. unfold file_holds, I2. cbn.
  constructor; [|constructor]. apply NoDup_singleton.
Defined.











(** *** Lines 21-22: letter case *)

Lemma is_space_upper (c : ascii) : PyStr.is_space (PyStr.upper_char c) = PyStr.is_space c.
Proof. destruct c as [[] [] [] [] [] [] [] []]; reflexivity. Qed.

Lemma is_space_lower (c : ascii) : PyStr.is_space (PyStr.lower_char c) = PyStr.is_space c.
Proof. destruct c as [[] [] [] [] [] [] [] []]; reflexivity. Qed.

Lemma lstrip_map (f : ascii -> ascii) (s : string) :
  (forall c, PyStr.is_space (f c) = PyStr.is_space c) ->
  PyStr.lstrip (PyStr.map f s) = PyStr.map f (PyStr.lstrip s).
Proof.
  intros Hf. induction s as [|c s IH]; [reflexivity|]. cbn. rewrite Hf.
  destruct (PyStr.is_space c); [exact IH|reflexivity].
Qed.

Lemma rstrip_map (f : ascii -> ascii) (s : string) :
  (forall c, PyStr.is_space (f c) = PyStr.is_space c) ->
  PyStr.rstrip (PyStr.map f s) = PyStr.map f (PyStr.rstrip s).
Proof.
  intros Hf. induction s as [|c s IH]; [reflexivity|]. cbn. rewrite IH, Hf.
  destruct (PyStr.rstrip s); cbn; [destruct (PyStr.is_space c)|]; reflexivity.
Qed.

Lemma strip_map (f : ascii -> ascii) (s : string) :
  (forall c, PyStr.is_space (f c) = PyStr.is_space c) ->
  PyStr.strip (PyStr.map f s) = PyStr.map f (PyStr.strip s).
Proof.
  intros Hf. unfold PyStr.strip. now rewrite lstrip_map, rstrip_map.
Qed.

(** X12. Email and key are read without regard to letter case: two
    environments that differ in INPUT_EMAIL and INPUT_MASTERKEY only by
    the case of letters give the same names at lines 21-27, hence the
    same run. *)
Theorem X12_letter_case_ignored
    (environ : gmap string string) (e1 e2 k1 k2 : string) (w : World) :
  PyStr.lower e1 = PyStr.lower e2 ->
  PyStr.upper k1 = PyStr.upper k2 ->
  parse_globals (<["INPUT_EMAIL" := e1]> (<["INPUT_MASTERKEY" := k1]> environ)) =
  parse_globals (<["INPUT_EMAIL" := e2]> (<["INPUT_MASTERKEY" := k2]> environ)) /\
  main (<["INPUT_EMAIL" := e1]> (<["INPUT_MASTERKEY" := k1]> environ)) w =
  main (<["INPUT_EMAIL" := e2]> (<["INPUT_MASTERKEY" := k2]> environ)) w.
Proof.
  intros He Hk.
  assert (Hp : parse_globals (<["INPUT_EMAIL" := e1]> (<["INPUT_MASTERKEY" := k1]> environ)) =
               parse_globals (<["INPUT_EMAIL" := e2]> (<["INPUT_MASTERKEY" := k2]> environ))).
  { unfold parse_globals, getenv.
    repeat (rewrite lookup_insert_eq || rewrite lookup_insert_ne by discriminate).
    cbn [default].
    assert (E1 : PyStr.lower (PyStr.strip e1) = PyStr.lower (PyStr.strip e2)).
    { unfold PyStr.lower. rewrite <- !(strip_map _ _ is_space_lower).
      fold (PyStr.lower e1) (PyStr.lower e2). now rewrite He. }
    assert (E2 : PyStr.upper (PyStr.strip k1) = PyStr.upper (PyStr.strip k2)).
    { unfold PyStr.upper. rewrite <- !(strip_map _ _ is_space_upper).
      fold (PyStr.upper k1) (PyStr.upper k2). now rewrite Hk. }
    unfold id. destruct (py_int _) as [k|]; cbn; [|reflexivity].
    now rewrite E1, E2. }
  split; [exact Hp|]. unfold main, read_globals. now rewrite Hp.
Qed.

Lemma X12_witness :
  main (<["INPUT_EMAIL" := "ALICE@x.COM"]> (<["INPUT_MASTERKEY" := "cece04e545f1f5be"]> env_alice1))
       world0 =
  main (<["INPUT_EMAIL" := "alice@X.com"]> (<["INPUT_MASTERKEY" := "CECE04E545F1F5BE"]> env_alice1))
       world0.
Proof.
  refine (proj2 (X12_letter_case_ignored env_alice1 "ALICE@x.COM" "alice@X.com"
                   "cece04e545f1f5be" "CECE04E545F1F5BE" world0 _ _)).
  - vm_compute. reflexivity.
  - vm_compute. reflexivity.
Defined.

(** *** Lines 45-56 again: when there is a result *)



(** *** Line 22: hyphens in the key *)






